(** * hw3_api: a URL shortener (FastAPI handlers over a relational table
      and a response cache)

    A shallow embedding of [models.py], [schemas.py] and the request handlers
    of [main.py], with the properties of the resolution path, the mutations
    and the read-only endpoints proved over it.

    Conventions.
    - A [datetime] is a number of seconds on the clock that [datetime.now()]
      reads; the same clock times the cache entries ([expire=60]).
    - Python integers are unbounded: [get_num] is a [Z]; the column is an
      [Integer], and a commit refuses a value outside its 32 bits.
    - The table [urls_db] is a finite map from its primary key, the column
      [short], to the remaining columns.
    - A handler is a function from the state of the world (table, cache,
      the file [tw.txt]) to an outcome and a new state; an exception is an
      outcome.
    - Requests are served one at a time, and a request is a call of its
      handler: routing and the validation of payloads are not modelled.
    - Every request gets a session of its own from [get_async_session]; a
      [session] stands for what the session object prints as.
    - What the imported packages decide and the sources do not show is a
      parameter: the string [shortuuid.uuid()] draws, the key under which the
      [cache] decorator files a call, and what [FastAPICache.clear] removes.
      A property that needs something of them says so in a hypothesis. *)

From stdpp Require Import base option gmap strings list fin_maps pretty.
From Stdlib Require Import ZArith.

Local Open Scope Z_scope.

(** ** models.py *)
Module models.

Abbreviation datetime := Z (only parsing).

(** The values a [Column(Integer)] of PostgreSQL holds. *)
Definition Integer_min : Z := -2147483648.
Definition Integer_max : Z := 2147483647.

(** The columns of [UrlsDB] other than [short], which is the primary key
    and hence the key of the table. *)
Record UrlsDB := mkUrlsDB {
  original : string;
  registered_at : datetime;
  get_num : Z;
  last_time : option datetime
}.

(** [UrlsDB(short=..., original=..., registered_at=...)] once inserted:
    [get_num] takes its column default [0], [last_time] has none and
    is NULL. *)
Definition new_UrlsDB (orig : string) (reg : datetime) : UrlsDB :=
  {| original := orig; registered_at := reg; get_num := 0; last_time := None |}.

End models.

(** ** schemas.py *)
Module schemas.
Import models.

Record ShortUrlCreate := mkShortUrlCreate {
  create_orig_url : string;
  alias_url : option string
}.

Record ShortUrlResponse := mkShortUrlResponse {
  orig_url : string;
  short_url : string;
  resp_registered_at : datetime
}.

Record ShortUrlStatsResponse := mkShortUrlStatsResponse {
  stats_base : ShortUrlResponse;
  stats_get_num : Z;
  stats_last_time : option datetime
}.

Record UrlUpdate := mkUrlUpdate {
  update_orig_url : string
}.

End schemas.

(** ** main.py *)
Module main.
Import models schemas.

(** *** The world the handlers run in *)

(** [{"redirect_url": ...}], the value [short_to_orig] returns and the
    decorator stores. *)
Record redirect := mkRedirect { redirect_url : string }.

(** A cache entry: the stored response and the time it expires at. *)
Abbreviation cache_entry := (redirect * datetime)%type (only parsing).

Record State := mkState {
  urls_db : gmap string UrlsDB;
  redis : gmap string cache_entry;
  tw_txt : option string
}.

Definition init : State :=
  {| urls_db := ∅; redis := ∅; tw_txt := None |}.

(** [DBAPIError]: the driver refuses a value the column cannot hold. *)
Inductive exception :=
| HTTPException (status_code : Z) (detail : string)
| IntegrityError
| DBAPIError.

(** What the session object of a request prints as. *)
Abbreviation session := nat (only parsing).

Definition HTTP_404_NOT_FOUND : Z := 404.
Definition HTTP_409_CONFLICT : Z := 409.

(** The three errors the handlers raise themselves. *)
Definition not_found : exception :=
  HTTPException HTTP_404_NOT_FOUND "Короткий URL не найден".
Definition no_links : exception :=
  HTTPException 404 "Ссылки не найдены".
Definition alias_taken : exception :=
  HTTPException HTTP_409_CONFLICT "Этот alias уже занят".

Inductive outcome (A : Type) :=
| Return (a : A)
| Raise (e : exception).
Arguments Return {A} a.
Arguments Raise {A} e.

Definition handler (A : Type) : Type := State → outcome A * State.

#[global] Instance handler_ret : MRet handler :=
  λ A a st, (Return a, st).
#[global] Instance handler_bind : MBind handler :=
  λ A B k m st, match m st with
                | (Return a, st') => k a st'
                | (Raise e, st') => (Raise e, st')
                end.
Definition raise {A} (e : exception) : handler A := λ st, (Raise e, st).

(** *** The session: statements against [urls_db] *)

(** [select(UrlsDB).where(UrlsDB.short == short_code)], then
    [scalar_one_or_none()]. *)
Definition select_by_short (short_code : string) : handler (option UrlsDB) :=
  λ st, (Return (urls_db st !! short_code), st).

(** [select(UrlsDB).where(UrlsDB.original == original_url)], then
    [scalars().all()]: the rows with their keys. *)
Definition select_by_original (original_url : string)
  : handler (list (string * UrlsDB)) :=
  λ st, (Return (filter (λ kr, original kr.2 = original_url)
                        (map_to_list (urls_db st))), st).

(** [db.add(new_url); await db.commit()]: the primary key refuses a
    second row with the same [short]. *)
Definition add_commit (short_code : string) (row : UrlsDB) : handler UrlsDB :=
  λ st, match urls_db st !! short_code with
        | Some _ => (Raise IntegrityError, st)
        | None =>
            (Return row,
             {| urls_db := <[short_code := row]> (urls_db st);
                redis := redis st; tw_txt := tw_txt st |})
        end.

(** The commit of a loaded row whose attributes were assigned: refused,
    and nothing written, when [get_num] does not fit the column. *)
Definition commit_row (short_code : string) (row : UrlsDB) : handler unit :=
  λ st, if decide (Integer_min ≤ get_num row ≤ Integer_max)
        then (Return (),
              {| urls_db := <[short_code := row]> (urls_db st);
                 redis := redis st; tw_txt := tw_txt st |})
        else (Raise DBAPIError, st).

(** [delete(UrlsDB).where(UrlsDB.short == short_code)], committed; the
    result is [rowcount]. *)
Definition delete_where_short (short_code : string) : handler Z :=
  λ st, (Return (if urls_db st !! short_code is Some _ then 1 else 0),
         {| urls_db := delete short_code (urls_db st);
            redis := redis st; tw_txt := tw_txt st |}).

(** [update(UrlsDB).where(UrlsDB.short == short_code)
      .values(original=...).returning(UrlsDB)], then
    [scalar_one_or_none()], committed. *)
Definition update_returning (short_code : string) (orig : string)
  : handler (option UrlsDB) :=
  λ st,
    let set_original r :=
      {| original := orig; registered_at := registered_at r;
         get_num := get_num r; last_time := last_time r |} in
    (Return (set_original <$> urls_db st !! short_code),
     {| urls_db := alter set_original short_code (urls_db st);
        redis := redis st; tw_txt := tw_txt st |}).

(** [with open("tw.txt", "w") as f: f.write(short_code)] *)
Definition write_tw (short_code : string) : handler unit :=
  λ st, (Return (),
         {| urls_db := urls_db st; redis := redis st;
            tw_txt := Some short_code |}).

(** *** The cache *)

(** What the backend answers for [key] at time [now]: an entry that has
    not expired; it is still answered at the time it expires at. *)
Definition cache_get (now : datetime) (key : string)
    (c : gmap string cache_entry) : option redirect :=
  match c !! key with
  | Some (v, expires) => if decide (now ≤ expires) then Some v else None
  | None => None
  end.

(** [@cache(expire=...)] around a handler called under [key]: a live
    entry is returned and the handler does not run; otherwise the handler
    runs and what it returns is stored. An exception stores nothing. *)
Definition cache (expire : Z) (key : string) (now : datetime)
    (f : handler redirect) : handler redirect :=
  λ st, match cache_get now key (redis st) with
        | Some v => (Return v, st)
        | None =>
            match f st with
            | (Return v, st') =>
                (Return v,
                 {| urls_db := urls_db st';
                    redis := <[key := (v, now + expire)]> (redis st');
                    tw_txt := tw_txt st' |})
            | (Raise e, st') => (Raise e, st')
            end
        end.

Section handlers.

(** [shortuuid.uuid()], as a function of the random number it draws. *)
Variable shortuuid_uuid : N → string.

(** The key under which the decorator files a call of [short_to_orig]: no
    key builder is given, so the key is made of the arguments of the call,
    the short code and the session of the request. *)
Variable key_builder : string → session → string.

(** [FastAPICache.clear(key=...)] on the backend's entries. *)
Variable FastAPICache_clear :
  string → gmap string cache_entry → gmap string cache_entry.

Definition invalidate_cache (short_code : string) : handler unit :=
  λ st, (Return (),
         {| urls_db := urls_db st;
            redis := FastAPICache_clear ("short_to_orig:" +:+ short_code)
                       (redis st);
            tw_txt := tw_txt st |}).

Definition generate_short_code (rnd : N) : string := shortuuid_uuid rnd.

Definition search_links (original_url : string)
  : handler (list ShortUrlResponse) :=
  urls_lst ← select_by_original original_url;
  match urls_lst with
  | [] => raise (HTTPException 404 "Ссылки не найдены")
  | _ => mret ((λ url, {| short_url := url.1;
                         orig_url := original url.2;
                         resp_registered_at := registered_at url.2 |})
                 <$> urls_lst)
  end.

Definition create_short (url : ShortUrlCreate) (now : datetime) (rnd : N)
  : handler ShortUrlResponse :=
  short_code ←
    match alias_url url with
    | Some alias =>
        existing ← select_by_short alias;
        match existing with
        | Some _ =>
            raise (HTTPException HTTP_409_CONFLICT "Этот alias уже занят")
        | None => mret alias
        end
    | None => mret (generate_short_code rnd)
    end;
  new_url ← add_commit short_code
              (new_UrlsDB (create_orig_url url) now);
  invalidate_cache short_code;;
  mret {| orig_url := create_orig_url url;
         short_url := short_code;
         resp_registered_at := registered_at new_url |}.

(** The body of [short_to_orig], under the decorator. *)
Definition short_to_orig_body (short_code : string) (now : datetime)
  : handler redirect :=
  write_tw short_code;;
  url_entry ← select_by_short short_code;
  match url_entry with
  | None =>
      raise (HTTPException HTTP_404_NOT_FOUND "Короткий URL не найден")
  | Some e =>
      let e' := {| original := original e;
                   registered_at := registered_at e;
                   get_num := get_num e + 1;
                   last_time := Some now |} in
      commit_row short_code e';;
      mret {| redirect_url := original e' |}
  end.

Definition short_to_orig (short_code : string) (db : session)
    (now : datetime) : handler redirect :=
  cache 60 (key_builder short_code db) now
    (short_to_orig_body short_code now).

Definition delete_short_url (short_code : string) : handler string :=
  rowcount ← delete_where_short short_code;
  if decide (rowcount = 0)
  then raise (HTTPException HTTP_404_NOT_FOUND "Короткий URL не найден")
  else
    invalidate_cache short_code;;
    mret "deleted".

Definition update_original_url (short_code : string) (url_data : UrlUpdate)
  : handler ShortUrlResponse :=
  updated_url ← update_returning short_code (update_orig_url url_data);
  match updated_url with
  | None =>
      raise (HTTPException HTTP_404_NOT_FOUND "Короткий URL не найден")
  | Some u =>
      invalidate_cache short_code;;
      mret {| orig_url := original u;
             short_url := short_code;
             resp_registered_at := registered_at u |}
  end.

Definition get_url_stats (short_code : string)
  : handler ShortUrlStatsResponse :=
  url_entry ← select_by_short short_code;
  match url_entry with
  | None => raise (HTTPException 404 "Короткий URL не найден")
  | Some e =>
      mret {| stats_base := {| orig_url := original e;
                              short_url := short_code;
                              resp_registered_at := registered_at e |};
             stats_get_num := get_num e;
             stats_last_time := last_time e |}
  end.

(** The short code a create request asks the table for. *)
Definition requested_code (url : ShortUrlCreate) (rnd : N) : string :=
  match alias_url url with
  | Some alias => alias
  | None => generate_short_code rnd
  end.

(** *** Requests and the states they lead to *)

Inductive request :=
| SearchLinks (original_url : string)
| CreateShort (url : ShortUrlCreate) (rnd : N)
| ShortToOrig (short_code : string) (db : session)
| DeleteShortUrl (short_code : string)
| UpdateOriginalUrl (short_code : string) (url_data : UrlUpdate)
| GetUrlStats (short_code : string).

(** The state a request received at time [now] leaves behind. *)
Definition serve (req : request) (now : datetime) (st : State) : State :=
  match req with
  | SearchLinks original_url => (search_links original_url st).2
  | CreateShort url rnd => (create_short url now rnd st).2
  | ShortToOrig short_code db => (short_to_orig short_code db now st).2
  | DeleteShortUrl short_code => (delete_short_url short_code st).2
  | UpdateOriginalUrl short_code url_data =>
      (update_original_url short_code url_data st).2
  | GetUrlStats short_code => (get_url_stats short_code st).2
  end.

(** [reachable t st]: requests served one after the other on a clock
    that does not run backwards lead from the empty table and cache to
    [st], the last of them no later than [t]. *)
Inductive reachable : datetime → State → Prop :=
| reachable_init t : reachable t init
| reachable_serve t st now req :
    reachable t st → t ≤ now → reachable now (serve req now st).

(** *** What the proofs ask of the packages *)

(** [shortuuid.uuid()] never returns the empty string. *)
Definition uuid_nonempty : Prop := ∀ rnd, shortuuid_uuid rnd ≠ "".

(** Clearing the key [invalidate_cache] names removes the entries the
    decorator filed for that short code, whatever the session. *)
Definition clear_evicts : Prop :=
  ∀ short_code db m,
    FastAPICache_clear ("short_to_orig:" +:+ short_code) m
      !! key_builder short_code db = None.

(** Clearing adds and alters nothing. *)
Definition clear_only_removes : Prop :=
  ∀ key m, FastAPICache_clear key m ⊆ m.

(** Calls for different short codes are filed under different keys. *)
Definition key_builder_inj : Prop :=
  ∀ c1 db1 c2 db2, key_builder c1 db1 = key_builder c2 db2 → c1 = c2.

(** *** Invariants *)

(** Every cache entry is a copy of the [original] of a row of the
    table. *)
Definition coherent (st : State) : Prop :=
  ∀ short_code db v expires,
    redis st !! key_builder short_code db = Some (v, expires) →
    ∃ e, urls_db st !! short_code = Some e ∧ redirect_url v = original e.

(** *** Names for what a request does *)

(** The short code a request names: the key of the one row it may write. *)
Definition touched (req : request) : option string :=
  match req with
  | SearchLinks _ => None
  | CreateShort url rnd => Some (requested_code url rnd)
  | ShortToOrig short_code _ => Some short_code
  | DeleteShortUrl short_code => Some short_code
  | UpdateOriginalUrl short_code _ => Some short_code
  | GetUrlStats short_code => Some short_code
  end.

Definition exception_of {A} (o : outcome A) : option exception :=
  match o with
  | Return _ => None
  | Raise e => Some e
  end.

(** The exception a request received at time [now] ends with, if any. *)
Definition raised (req : request) (now : datetime) (st : State)
  : option exception :=
  match req with
  | SearchLinks original_url => exception_of (search_links original_url st).1
  | CreateShort url rnd => exception_of (create_short url now rnd st).1
  | ShortToOrig short_code db =>
      exception_of (short_to_orig short_code db now st).1
  | DeleteShortUrl short_code => exception_of (delete_short_url short_code st).1
  | UpdateOriginalUrl short_code url_data =>
      exception_of (update_original_url short_code url_data st).1
  | GetUrlStats short_code => exception_of (get_url_stats short_code st).1
  end.

End handlers.

(** The visit count and the visit time of every row agree: a count of zero
    goes with no last visit, and no time is later than [t] or earlier than
    the registration. *)
Definition sound_stats (t : datetime) (st : State) : Prop :=
  ∀ short_code e,
    urls_db st !! short_code = Some e →
    0 ≤ get_num e
    ∧ (get_num e = 0 ↔ last_time e = None)
    ∧ registered_at e ≤ t
    ∧ ∀ l, last_time e = Some l → registered_at e ≤ l ∧ l ≤ t.

(** Every count is one the column holds. *)
Definition counts_fit (st : State) : Prop :=
  ∀ short_code e,
    urls_db st !! short_code = Some e →
    Integer_min ≤ get_num e ≤ Integer_max.

(** No cache entry outlives [t + 60]. *)
Definition short_lived (t : datetime) (st : State) : Prop :=
  ∀ key v expires, redis st !! key = Some (v, expires) → expires ≤ t + 60.

(** *** Instances of the parameters *)

(** A generator for the examples: the letter [u] and the number drawn. *)
Definition uuid_by_number (rnd : N) : string := "u" +:+ pretty rnd.

(** A key for the examples: the marks of the cache, one stroke per
    session number, then the short code. *)
Fixpoint session_marks (db : session) (short_code : string) : string :=
  match db with
  | O => ":" +:+ short_code
  | S n => "#" +:+ session_marks n short_code
  end.

Definition key_by_call (short_code : string) (db : session) : string :=
  "fastapi-cache::" +:+ session_marks db short_code.

(** A clear that empties the cache, whatever the key. *)
Definition clear_all (key : string) (m : gmap string cache_entry)
  : gmap string cache_entry := ∅.

(** A clear that removes the entry under the given key, and nothing when
    there is none. *)
Definition clear_one_key (key : string) (m : gmap string cache_entry)
  : gmap string cache_entry := delete key m.


(** *** A session: shorten under the alias ["a"], then resolve twice with
    sessions that print the same *)

Definition example_url : ShortUrlCreate :=
  {| create_orig_url := "https://example.com"; alias_url := Some "a" |}.

Definition created : State :=
  (create_short uuid_by_number clear_all example_url 0 0%N init).2.

Definition visited_once : State :=
  (short_to_orig key_by_call "a" 0%nat 1 created).2.

(** The second resolve, one second after the first. *)
Definition revisited : outcome redirect * State :=
  short_to_orig key_by_call "a" 0%nat 2 visited_once.

(** A table whose one row has the largest count the column holds. *)
Definition at_max : State :=
  {| urls_db := {[ "a" := {| original := "https://example.com";
                             registered_at := 0;
                             get_num := Integer_max;
                             last_time := Some 1 |} ]};
     redis := ∅;
     tw_txt := Some "a" |}.

(** ** Properties *)

Ltac run :=
  unfold short_to_orig, cache, short_to_orig_body, create_short,
    delete_short_url, update_original_url, get_url_stats, search_links,
    invalidate_cache, requested_code, generate_short_code, select_by_short,
    select_by_original, add_commit, commit_row, delete_where_short,
    update_returning, write_tw, raise, mbind, mret, handler_bind,
    handler_ret, not_found, no_links, alias_taken in *;
  simpl in *.

Lemma State_eq (st : State) :
  {| urls_db := urls_db st; redis := redis st; tw_txt := tw_txt st |} = st.
Proof. by destruct st. Qed.

Lemma cache_get_None now key (m : gmap string cache_entry) :
  m !! key = None → cache_get now key m = None.
Proof. unfold cache_get. by intros ->. Qed.

Lemma cache_get_Some now key (m : gmap string cache_entry) v :
  cache_get now key m = Some v →
  ∃ expires, m !! key = Some (v, expires) ∧ now ≤ expires.
Proof.
  unfold cache_get. destruct (m !! key) as [[w expires]|]; [|done].
  case_decide; [|done]. intros [= ->]. eauto.
Qed.

Section properties.

Variable shortuuid_uuid : N → string.
Variable key_builder : string → session → string.
Variable FastAPICache_clear :
  string → gmap string cache_entry → gmap string cache_entry.

Abbreviation create_short := (create_short shortuuid_uuid FastAPICache_clear).
Abbreviation short_to_orig := (short_to_orig key_builder).
Abbreviation delete_short_url := (delete_short_url FastAPICache_clear).
Abbreviation update_original_url := (update_original_url FastAPICache_clear).
Abbreviation requested_code := (requested_code shortuuid_uuid).
Abbreviation serve := (serve shortuuid_uuid key_builder FastAPICache_clear).
Abbreviation reachable :=
  (reachable shortuuid_uuid key_builder FastAPICache_clear).
Abbreviation clear_evicts := (clear_evicts key_builder FastAPICache_clear).
Abbreviation clear_only_removes := (clear_only_removes FastAPICache_clear).
Abbreviation key_builder_inj := (key_builder_inj key_builder).
Abbreviation uuid_nonempty := (uuid_nonempty shortuuid_uuid).
Abbreviation coherent := (coherent key_builder).

(** *** What each handler computes *)

Lemma short_to_orig_hit short_code db now st v :
  cache_get now (key_builder short_code db) (redis st) = Some v →
  short_to_orig short_code db now st = (Return v, st).
Proof. intros Hhit. run. by rewrite Hhit. Qed.

Lemma short_to_orig_miss short_code db now st e :
  cache_get now (key_builder short_code db) (redis st) = None →
  urls_db st !! short_code = Some e →
  Integer_min ≤ get_num e + 1 ≤ Integer_max →
  short_to_orig short_code db now st =
    (Return {| redirect_url := original e |},
     {| urls_db :=
          <[short_code := {| original := original e;
                             registered_at := registered_at e;
                             get_num := get_num e + 1;
                             last_time := Some now |}]> (urls_db st);
        redis := <[key_builder short_code db :=
                     ({| redirect_url := original e |}, now + 60)]>
                   (redis st);
        tw_txt := Some short_code |}).
Proof.
  intros Hmiss He Hfit. run. rewrite Hmiss, He. simpl.
  by rewrite decide_True.
Qed.

Lemma short_to_orig_miss_refused short_code db now st e :
  cache_get now (key_builder short_code db) (redis st) = None →
  urls_db st !! short_code = Some e →
  ¬ (Integer_min ≤ get_num e + 1 ≤ Integer_max) →
  short_to_orig short_code db now st =
    (Raise DBAPIError,
     {| urls_db := urls_db st; redis := redis st;
        tw_txt := Some short_code |}).
Proof.
  intros Hmiss He Hfit. run. rewrite Hmiss, He. simpl.
  by rewrite decide_False.
Qed.

Lemma short_to_orig_miss_unknown short_code db now st :
  cache_get now (key_builder short_code db) (redis st) = None →
  urls_db st !! short_code = None →
  short_to_orig short_code db now st =
    (Raise not_found,
     {| urls_db := urls_db st; redis := redis st;
        tw_txt := Some short_code |}).
Proof. intros Hmiss He. run. by rewrite Hmiss, He. Qed.

(** A resolve that the cache does not answer and that does not count a
    visit leaves the table and the cache as they were. *)
Lemma short_to_orig_miss_cases short_code db now st :
  cache_get now (key_builder short_code db) (redis st) = None →
  (∃ e, urls_db st !! short_code = Some e
        ∧ Integer_min ≤ get_num e + 1 ≤ Integer_max
        ∧ short_to_orig short_code db now st =
            (Return {| redirect_url := original e |},
             {| urls_db :=
                  <[short_code := {| original := original e;
                                     registered_at := registered_at e;
                                     get_num := get_num e + 1;
                                     last_time := Some now |}]> (urls_db st);
                redis := <[key_builder short_code db :=
                             ({| redirect_url := original e |}, now + 60)]>
                           (redis st);
                tw_txt := Some short_code |}))
  ∨ (∃ ex, short_to_orig short_code db now st =
             (Raise ex,
              {| urls_db := urls_db st; redis := redis st;
                 tw_txt := Some short_code |})).
Proof.
  intros Hmiss. destruct (urls_db st !! short_code) as [e|] eqn:He.
  - destruct (decide (Integer_min ≤ get_num e + 1 ≤ Integer_max))
      as [Hfit|Hfit].
    + left. exists e. split; [done|]. split; [done|].
      by apply short_to_orig_miss.
    + right. eexists. by eapply short_to_orig_miss_refused.
  - right. eexists. by apply short_to_orig_miss_unknown.
Qed.

Lemma create_short_fresh url now rnd st :
  urls_db st !! requested_code url rnd = None →
  create_short url now rnd st =
    (Return {| orig_url := create_orig_url url;
               short_url := requested_code url rnd;
               resp_registered_at := now |},
     {| urls_db := <[requested_code url rnd :=
                       new_UrlsDB (create_orig_url url) now]> (urls_db st);
        redis := FastAPICache_clear
                   ("short_to_orig:" +:+ requested_code url rnd) (redis st);
        tw_txt := tw_txt st |}).
Proof.
  intros Hfree. run. destruct (alias_url url) as [alias|]; simpl in *;
    by rewrite ?Hfree.
Qed.

Lemma delete_short_url_found short_code st e :
  urls_db st !! short_code = Some e →
  delete_short_url short_code st =
    (Return "deleted",
     {| urls_db := delete short_code (urls_db st);
        redis := FastAPICache_clear ("short_to_orig:" +:+ short_code)
                   (redis st);
        tw_txt := tw_txt st |}).
Proof. intros He. run. by rewrite He. Qed.

Lemma delete_short_url_unknown short_code st :
  urls_db st !! short_code = None →
  delete_short_url short_code st = (Raise not_found, st).
Proof.
  intros He. run. rewrite He. simpl.
  rewrite delete_id by done. by rewrite State_eq.
Qed.

Lemma update_original_url_found short_code url_data st e :
  urls_db st !! short_code = Some e →
  update_original_url short_code url_data st =
    (Return {| orig_url := update_orig_url url_data;
               short_url := short_code;
               resp_registered_at := registered_at e |},
     {| urls_db :=
          <[short_code := {| original := update_orig_url url_data;
                             registered_at := registered_at e;
                             get_num := get_num e;
                             last_time := last_time e |}]> (urls_db st);
        redis := FastAPICache_clear ("short_to_orig:" +:+ short_code)
                   (redis st);
        tw_txt := tw_txt st |}).
Proof.
  intros He. run. rewrite He. simpl. do 2 f_equal.
  apply map_eq. intros k. rewrite lookup_alter, lookup_insert.
  case_decide; subst; by rewrite ?He.
Qed.

Lemma update_original_url_unknown short_code url_data st :
  urls_db st !! short_code = None →
  update_original_url short_code url_data st = (Raise not_found, st).
Proof.
  intros He. run. rewrite He. simpl.
  rewrite alter_id' by done. by rewrite State_eq.
Qed.

Lemma get_url_stats_state short_code st :
  (get_url_stats short_code st).2 = st.
Proof. run. by destruct (urls_db st !! short_code). Qed.

Lemma search_links_state original_url st :
  (search_links original_url st).2 = st.
Proof. run. by destruct (filter _ _). Qed.

Lemma create_short_taken url now rnd st e :
  urls_db st !! requested_code url rnd = Some e →
  (create_short url now rnd st).2 = st.
Proof.
  intros He. run. destruct (alias_url url) as [alias|]; simpl in *;
    by rewrite ?He.
Qed.

(** *** The cache stays a copy of the table *)

Lemma coherent_init : coherent init.
Proof. intros c d v expires. simpl. by rewrite lookup_empty. Qed.

Lemma coherent_cleared st short_code tbl :
  clear_evicts → clear_only_removes → coherent st →
  (∀ c, c ≠ short_code → tbl !! c = urls_db st !! c) →
  coherent {| urls_db := tbl;
              redis := FastAPICache_clear ("short_to_orig:" +:+ short_code)
                         (redis st);
              tw_txt := tw_txt st |}.
Proof.
  intros Hev Hrm Hco Htbl c d v expires. simpl. intros Hin.
  destruct (decide (c = short_code)) as [->|Hne].
  - by rewrite Hev in Hin.
  - rewrite (Htbl _ Hne). apply (Hco c d v expires).
    eapply lookup_weaken; [exact Hin | apply Hrm].
Qed.

Lemma short_to_orig_coherent short_code db now st :
  key_builder_inj → coherent st →
  coherent (short_to_orig short_code db now st).2.
Proof.
  intros Hinj Hco.
  destruct (cache_get now (key_builder short_code db) (redis st))
    as [v|] eqn:Hget.
  { by erewrite short_to_orig_hit. }
  destruct (short_to_orig_miss_cases short_code db now st Hget)
    as [(e & He & Hfit & ->)|[ex ->]]; [|exact Hco].
  intros c d v expires. simpl.
  destruct (decide (key_builder c d = key_builder short_code db))
    as [Hk|Hk].
  - rewrite Hk, lookup_insert_eq. intros [= <- <-].
    apply Hinj in Hk as ->. rewrite lookup_insert_eq. eauto.
  - rewrite lookup_insert_ne by done. intros Hin.
    destruct (Hco c d v expires Hin) as (e' & He' & Hv).
    destruct (decide (c = short_code)) as [->|Hne].
    + rewrite lookup_insert_eq. simplify_eq. eauto.
    + rewrite lookup_insert_ne by done. eauto.
Qed.

Lemma serve_coherent req now st :
  clear_evicts → clear_only_removes → key_builder_inj →
  coherent st → coherent (serve req now st).
Proof.
  intros Hev Hrm Hinj Hco. destruct req as [q|url rnd|c db|c|c d|c]; simpl.
  - by rewrite search_links_state.
  - destruct (urls_db st !! requested_code url rnd) as [e|] eqn:He.
    + by erewrite create_short_taken.
    + rewrite create_short_fresh by done. simpl.
      apply coherent_cleared; [done..|].
      intros c Hne. by rewrite lookup_insert_ne.
  - by apply short_to_orig_coherent.
  - destruct (urls_db st !! c) as [e|] eqn:He.
    + erewrite delete_short_url_found by done. simpl.
      apply coherent_cleared; [done..|].
      intros c' Hne. by rewrite lookup_delete_ne.
    + by rewrite delete_short_url_unknown.
  - destruct (urls_db st !! c) as [e|] eqn:He.
    + erewrite update_original_url_found by done. simpl.
      apply coherent_cleared; [done..|].
      intros c' Hne. by rewrite lookup_insert_ne.
    + by rewrite update_original_url_unknown.
  - by rewrite get_url_stats_state.
Qed.

Lemma reachable_coherent t st :
  clear_evicts → clear_only_removes → key_builder_inj →
  reachable t st → coherent st.
Proof.
  intros Hev Hrm Hinj Hreach.
  induction Hreach as [t|t st now req _ IH _].
  - apply coherent_init.
  - by apply serve_coherent.
Qed.

(** *** Creation *)

(** C5. A create whose alias is the short code of an existing row fails
    with 409 Conflict and leaves the whole state as it was: the row keeps
    its original URL, registration time, visit count and last visit time,
    and no row is inserted. *)
Theorem create_short_alias_conflict url now rnd st alias e :
  alias_url url = Some alias →
  urls_db st !! alias = Some e →
  create_short url now rnd st = (Raise alias_taken, st)
  ∧ urls_db (create_short url now rnd st).2 !! alias = Some e
  ∧ dom (urls_db (create_short url now rnd st).2) = dom (urls_db st).
Proof.
  intros Ha He.
  assert (create_short url now rnd st = (Raise alias_taken, st)) as ->.
  { run. by rewrite Ha; simpl; rewrite He. }
  done.
Qed.

(** C6. A create that succeeds has inserted, under the code it returns, a
    row with [registered_at] the current time, [get_num] 0 and
    [last_time] NULL, next to the rows that were there; the response
    carries that row's original URL, short code and registration time. *)
Theorem create_short_inserts url now rnd st resp st' :
  create_short url now rnd st = (Return resp, st') →
  urls_db st !! short_url resp = None
  ∧ urls_db st' =
      <[short_url resp := {| original := create_orig_url url;
                             registered_at := now;
                             get_num := 0;
                             last_time := None |}]> (urls_db st)
  ∧ resp = {| orig_url := create_orig_url url;
              short_url := requested_code url rnd;
              resp_registered_at := now |}.
Proof.
  intros Hrun.
  destruct (urls_db st !! requested_code url rnd) as [e|] eqn:He.
  - exfalso. run.
    destruct (alias_url url) as [alias|]; simpl in *;
      rewrite He in Hrun; discriminate.
  - rewrite create_short_fresh in Hrun by done.
    injection Hrun as <- <-. by simpl.
Qed.

(** *** The read-only endpoints *)

(** C9. The search by original URL answers with one response per row
    whose [original] is equal, as a string, to the URL asked for, and
    with nothing else; when there is no such row it raises 404 and
    returns no list. The state is not touched. *)
Theorem search_links_exact original_url st :
  (search_links original_url st).2 = st
  ∧ match (search_links original_url st).1 with
    | Return l =>
        l ≠ []
        ∧ NoDup (short_url <$> l)
        ∧ ∀ r, r ∈ l ↔
            ∃ e, urls_db st !! short_url r = Some e
                 ∧ original e = original_url
                 ∧ orig_url r = original e
                 ∧ resp_registered_at r = registered_at e
    | Raise ex =>
        ex = no_links
        ∧ ∀ c e, urls_db st !! c = Some e → original e ≠ original_url
    end.
Proof.
  split; [apply search_links_state|]. run.
  set (P := λ kr : string * UrlsDB, original kr.2 = original_url).
  set (f := λ url : string * UrlsDB,
         {| short_url := url.1; orig_url := original url.2;
            resp_registered_at := registered_at url.2 |}).
  pose proof (list_elem_of_filter P (map_to_list (urls_db st))) as Hin.
  pose proof (NoDup_fst_map_to_list (urls_db st)) as Hnd.
  assert (sublist (filter P (map_to_list (urls_db st))).*1
            (map_to_list (urls_db st)).*1) as Hsub
    by apply fmap_sublist, sublist_filter.
  destruct (filter P (map_to_list (urls_db st))) as [|kr l] eqn:Hl;
    cbn [fst snd].
  - split; [done|]. intros c e He Hc.
    specialize (Hin (c, e)). rewrite elem_of_map_to_list in Hin.
    by eapply not_elem_of_nil, Hin.
  - split; [done|]. split.
    + rewrite <-list_fmap_compose.
      change (NoDup ((kr :: l).*1)). by eapply sublist_NoDup.
    + intros r. rewrite list_elem_of_fmap. split.
      * intros [[c e] [-> [HP Hm]%Hin]].
        apply elem_of_map_to_list in Hm. by exists e.
      * intros (e & He & Hq & Ho & Hr). exists (short_url r, e). split.
        { destruct r; simpl in *. by subst. }
        apply Hin. split; [done|]. by apply elem_of_map_to_list.
Qed.

(** C10. Reading the stats of a short code changes nothing: the table
    (visit counts and last visit times included), the cache and the rest
    of the state are what they were, whether the row exists, in which
    case its five fields are returned, or not, in which case 404 is
    raised. *)
Theorem get_url_stats_read_only short_code st :
  get_url_stats short_code st =
    (match urls_db st !! short_code with
     | Some e =>
         Return {| stats_base :=
                     {| orig_url := original e;
                        short_url := short_code;
                        resp_registered_at := registered_at e |};
                   stats_get_num := get_num e;
                   stats_last_time := last_time e |}
     | None => Raise not_found
     end, st).
Proof. run. by destruct (urls_db st !! short_code). Qed.

(** *** Resolution *)

(** C1. The code does not record every visit. A resolve that the cache
    does not answer finds the row, returns its URL and counts the visit;
    a resolve of the same short code with a session that prints the same,
    no more than 60 seconds later, is answered by the cache: it returns
    the URL as well, and leaves the state as it is, so the count is not
    incremented and the last visit time is not set. *)
Theorem short_to_orig_hit_drops_visit short_code db now0 now1 st e :
  cache_get now0 (key_builder short_code db) (redis st) = None →
  urls_db st !! short_code = Some e →
  0 ≤ get_num e < Integer_max →
  now1 ≤ now0 + 60 →
  ∃ st1,
    short_to_orig short_code db now0 st
      = (Return {| redirect_url := original e |}, st1)
    ∧ urls_db st1 !! short_code
      = Some {| original := original e;
                registered_at := registered_at e;
                get_num := get_num e + 1;
                last_time := Some now0 |}
    ∧ short_to_orig short_code db now1 st1
      = (Return {| redirect_url := original e |}, st1).
Proof.
  intros Hmiss He Hfit Hle. eexists. split.
  { apply short_to_orig_miss; [done..|].
    unfold Integer_min, Integer_max in *. lia. }
  split; [apply lookup_insert_eq|].
  apply short_to_orig_hit. unfold cache_get. simpl.
  rewrite lookup_insert_eq. by rewrite decide_True.
Qed.

(** C4. In a state that requests have led to, a resolve of a short code
    that has no row raises 404; the table and the cache are left as they
    were, so no entry is written for the miss. *)
Theorem short_to_orig_unknown_code t st short_code db now :
  clear_evicts → clear_only_removes → key_builder_inj →
  reachable t st →
  urls_db st !! short_code = None →
  (short_to_orig short_code db now st).1 = Raise not_found
  ∧ urls_db (short_to_orig short_code db now st).2 = urls_db st
  ∧ redis (short_to_orig short_code db now st).2 = redis st.
Proof.
  intros Hev Hrm Hinj Hreach He.
  pose proof (reachable_coherent _ _ Hev Hrm Hinj Hreach) as Hco.
  destruct (cache_get now (key_builder short_code db) (redis st))
    as [v|] eqn:Hget.
  - apply cache_get_Some in Hget as (expires & Hin & _).
    destruct (Hco _ _ _ _ Hin) as (e & He' & _). congruence.
  - by rewrite short_to_orig_miss_unknown.
Qed.

(** *** Mutation, then resolution *)

Lemma short_to_orig_after_clear short_code db now tbl rd tw e :
  clear_evicts →
  tbl !! short_code = Some e →
  0 ≤ get_num e < Integer_max →
  (short_to_orig short_code db now
     {| urls_db := tbl;
        redis := FastAPICache_clear ("short_to_orig:" +:+ short_code) rd;
        tw_txt := tw |}).1
  = Return {| redirect_url := original e |}.
Proof.
  intros Hev He Hfit. erewrite short_to_orig_miss; [done| |done|].
  - apply cache_get_None, Hev.
  - unfold Integer_min, Integer_max in *. lia.
Qed.

(** C2, as the code has it. When the row exists and its visit count is
    below the largest value of the column, an update returns the updated
    row, and the resolve that follows it returns the new URL: the update
    has cleared the cache entry of the short code, so the resolve reads
    the table. *)
Theorem update_then_resolve short_code db url_data st e now :
  clear_evicts →
  urls_db st !! short_code = Some e →
  0 ≤ get_num e < Integer_max →
  ∃ st',
    update_original_url short_code url_data st
      = (Return {| orig_url := update_orig_url url_data;
                   short_url := short_code;
                   resp_registered_at := registered_at e |}, st')
    ∧ redis st' !! key_builder short_code db = None
    ∧ (short_to_orig short_code db now st').1
      = Return {| redirect_url := update_orig_url url_data |}.
Proof.
  intros Hev He Hfit. eexists.
  split; [by apply update_original_url_found|].
  split; [apply Hev|].
  erewrite short_to_orig_after_clear;
    [|done|apply lookup_insert_eq|done].
  done.
Qed.

(** C3. A create without an alias whose generated code is free returns
    that code, which is not empty, stores the row under it, and the
    resolve that follows returns the URL the create was given. *)
Theorem create_then_resolve url now rnd st db now' :
  uuid_nonempty → clear_evicts →
  alias_url url = None →
  urls_db st !! shortuuid_uuid rnd = None →
  ∃ resp st',
    create_short url now rnd st = (Return resp, st')
    ∧ short_url resp = shortuuid_uuid rnd
    ∧ short_url resp ≠ ""
    ∧ original <$> urls_db st' !! short_url resp
      = Some (create_orig_url url)
    ∧ (short_to_orig (short_url resp) db now' st').1
      = Return {| redirect_url := create_orig_url url |}.
Proof.
  intros Hne Hev Ha Hfree.
  assert (requested_code url rnd = shortuuid_uuid rnd) as Hcode
    by (unfold main.requested_code, generate_short_code; by rewrite Ha).
  do 2 eexists. split.
  { apply create_short_fresh. by rewrite Hcode. }
  simpl. rewrite Hcode. split; [done|]. split; [apply Hne|].
  split; [by rewrite lookup_insert_eq|].
  erewrite short_to_orig_after_clear;
    [|done|apply lookup_insert_eq|by unfold Integer_max].
  done.
Qed.

(** C7. A delete of a short code that has a row removes that row, leaves
    the others, and returns the confirmation; the resolve that follows
    raises 404. A delete that matches no row raises 404 and changes
    nothing. *)
Theorem delete_then_resolve short_code db st now :
  clear_evicts →
  (∀ e, urls_db st !! short_code = Some e →
     ∃ st',
       delete_short_url short_code st = (Return "deleted", st')
       ∧ urls_db st' = delete short_code (urls_db st)
       ∧ (short_to_orig short_code db now st').1 = Raise not_found)
  ∧ (urls_db st !! short_code = None →
       delete_short_url short_code st = (Raise not_found, st)).
Proof.
  intros Hev. split.
  - intros e He. eexists. split; [by eapply delete_short_url_found|].
    split; [done|].
    rewrite short_to_orig_miss_unknown; [done|..]; simpl.
    + apply cache_get_None, Hev.
    + apply lookup_delete_eq.
  - apply delete_short_url_unknown.
Qed.

(** *** What no request does to a row *)

(** C8. Whatever the request (search, create, resolve, delete, update,
    stats), a row that is in the table before and after it has a
    [get_num] no smaller than before and the same [registered_at]. *)
Theorem serve_keeps_count_and_registration req now st short_code e e' :
  urls_db st !! short_code = Some e →
  urls_db (serve req now st) !! short_code = Some e' →
  get_num e ≤ get_num e' ∧ registered_at e = registered_at e'.
Proof.
  intros He He'. destruct req as [q|url rnd|c db|c|c d|c]; simpl in He'.
  - rewrite search_links_state in He'. by simplify_eq.
  - destruct (urls_db st !! requested_code url rnd) as [x|] eqn:Hx.
    + erewrite create_short_taken in He' by done. by simplify_eq.
    + rewrite create_short_fresh in He' by done. simpl in He'.
      rewrite lookup_insert_ne in He' by congruence. by simplify_eq.
  - destruct (cache_get now (key_builder c db) (redis st)) as [v|] eqn:Hget.
    { erewrite short_to_orig_hit in He' by done. simpl in He'.
      by simplify_eq. }
    destruct (short_to_orig_miss_cases c db now st Hget)
      as [(x & Hx & Hfit & Hrun)|[ex Hrun]]; rewrite Hrun in He';
      simpl in He'.
    + destruct (decide (c = short_code)) as [->|Hne].
      * rewrite lookup_insert_eq in He'. simplify_eq. simpl. lia.
      * rewrite lookup_insert_ne in He' by done. by simplify_eq.
    + by simplify_eq.
  - destruct (urls_db st !! c) as [x|] eqn:Hx.
    + erewrite delete_short_url_found in He' by done. simpl in He'.
      apply lookup_delete_Some in He' as [_ He']. by simplify_eq.
    + rewrite delete_short_url_unknown in He' by done. simpl in He'.
      by simplify_eq.
  - destruct (urls_db st !! c) as [x|] eqn:Hx.
    + erewrite update_original_url_found in He' by done. simpl in He'.
      destruct (decide (c = short_code)) as [->|Hne].
      * rewrite lookup_insert_eq in He'. by simplify_eq.
      * rewrite lookup_insert_ne in He' by done. by simplify_eq.
    + rewrite update_original_url_unknown in He' by done. simpl in He'.
      by simplify_eq.
  - rewrite get_url_stats_state in He'. by simplify_eq.
Qed.

End properties.

(** *** The instances meet what is asked of the packages *)

Lemma uuid_by_number_nonempty : uuid_nonempty uuid_by_number.
Proof. by intros rnd. Qed.

Lemma session_marks_inj db1 c1 db2 c2 :
  session_marks db1 c1 = session_marks db2 c2 → c1 = c2.
Proof.
  revert db2. induction db1 as [|n IH]; intros [|m]; simpl;
    intros [= Heq]; eauto.
Qed.

Lemma key_by_call_inj : key_builder_inj key_by_call.
Proof.
  intros c1 db1 c2 db2 Heq. injection Heq as Heq.
  by eapply session_marks_inj.
Qed.

Lemma clear_all_evicts : clear_evicts key_by_call clear_all.
Proof. intros c db m. apply lookup_empty. Qed.

Lemma clear_all_only_removes : clear_only_removes clear_all.
Proof. intros key m. apply map_empty_subseteq. Qed.

Lemma clear_one_key_only_removes : clear_only_removes clear_one_key.
Proof. intros key m. apply delete_subseteq. Qed.

(** *** The theorems at the session *)

Lemma create_short_alias_conflict_witness :
  create_short uuid_by_number clear_all example_url 5 0%N visited_once
    = (Raise alias_taken, visited_once)
  ∧ urls_db (create_short uuid_by_number clear_all example_url 5 0%N
               visited_once).2 !! "a"
    = Some {| original := "https://example.com"; registered_at := 0;
              get_num := 1; last_time := Some 1 |}
  ∧ dom (urls_db (create_short uuid_by_number clear_all example_url 5
                    0%N visited_once).2)
    = dom (urls_db visited_once).
Proof.
  apply (create_short_alias_conflict uuid_by_number clear_all
           example_url 5 0%N visited_once "a"); reflexivity.
Defined.

Lemma create_short_inserts_witness :
  urls_db init !! "a" = None
  ∧ urls_db created =
      <[ "a" := {| original := "https://example.com"; registered_at := 0;
                   get_num := 0; last_time := None |} ]> (urls_db init)
  ∧ {| orig_url := "https://example.com"; short_url := "a";
       resp_registered_at := 0 |}
    = {| orig_url := "https://example.com";
         short_url := requested_code uuid_by_number example_url 0%N;
         resp_registered_at := 0 |}.
Proof.
  apply (create_short_inserts uuid_by_number clear_all example_url 0
           0%N init
           {| orig_url := "https://example.com"; short_url := "a";
              resp_registered_at := 0 |} created).
  reflexivity.
Defined.

Lemma created_reachable :
  reachable uuid_by_number key_by_call clear_all 0 created.
Proof.
  change created with
    (serve uuid_by_number key_by_call clear_all
       (CreateShort example_url 0%N) 0 init).
  apply reachable_serve with (t := 0); [apply reachable_init | done].
Qed.

Lemma visited_once_reachable :
  reachable uuid_by_number key_by_call clear_all 1 visited_once.
Proof.
  change visited_once with
    (serve uuid_by_number key_by_call clear_all
       (ShortToOrig "a" 0%nat) 1 created).
  apply reachable_serve with (t := 0); [apply created_reachable | done].
Qed.

(** The session run: one second after a first resolve has counted one
    visit, the second resolve, whose session prints the same, succeeds
    from the cache; the row still counts one visit and still carries the
    time of the first. *)
Lemma short_to_orig_hit_records_no_visit :
  revisited.1 = Return {| redirect_url := "https://example.com" |}
  ∧ get_num <$> urls_db visited_once !! "a" = Some 1
  ∧ get_num <$> urls_db revisited.2 !! "a" = Some 1
  ∧ last_time <$> urls_db revisited.2 !! "a" = Some (Some 1)
  ∧ revisited.2 = visited_once.
Proof. repeat split; reflexivity. Qed.

Lemma short_to_orig_hit_drops_visit_witness :
  ∃ st1,
    short_to_orig key_by_call "a" 0%nat 1 created
      = (Return {| redirect_url := "https://example.com" |}, st1)
    ∧ urls_db st1 !! "a"
      = Some {| original := "https://example.com"; registered_at := 0;
                get_num := 1; last_time := Some 1 |}
    ∧ short_to_orig key_by_call "a" 0%nat 2 st1
      = (Return {| redirect_url := "https://example.com" |}, st1).
Proof.
  apply (short_to_orig_hit_drops_visit key_by_call "a" 0%nat 1 2 created
           (new_UrlsDB "https://example.com" 0));
    [reflexivity | reflexivity | done | done].
Defined.

Lemma short_to_orig_unknown_code_witness :
  (short_to_orig key_by_call "b" 0%nat 2 visited_once).1 = Raise not_found
  ∧ urls_db (short_to_orig key_by_call "b" 0%nat 2 visited_once).2
    = urls_db visited_once
  ∧ redis (short_to_orig key_by_call "b" 0%nat 2 visited_once).2
    = redis visited_once.
Proof.
  apply (short_to_orig_unknown_code uuid_by_number key_by_call
           clear_all 1 visited_once "b" 0%nat 2
           clear_all_evicts clear_all_only_removes
           key_by_call_inj visited_once_reachable).
  reflexivity.
Defined.

(** C2 as stated fails. The row of ["a"] counts 2147483647 visits: the
    update succeeds, and the resolve that follows it raises at the commit
    of the count and returns no URL; the row keeps its count. *)
Lemma update_then_resolve_at_max :
  (update_original_url clear_all "a"
     {| update_orig_url := "https://example.org" |} at_max).1
    = Return {| orig_url := "https://example.org"; short_url := "a";
                resp_registered_at := 0 |}
  ∧ (short_to_orig key_by_call "a" 0%nat 2
       (update_original_url clear_all "a"
          {| update_orig_url := "https://example.org" |} at_max).2).1
    = Raise DBAPIError
  ∧ urls_db
      (short_to_orig key_by_call "a" 0%nat 2
         (update_original_url clear_all "a"
            {| update_orig_url := "https://example.org" |} at_max).2).2
      !! "a"
    = Some {| original := "https://example.org"; registered_at := 0;
              get_num := 2147483647; last_time := Some 1 |}.
Proof. repeat split; reflexivity. Qed.

Lemma update_then_resolve_witness :
  ∃ st',
    update_original_url clear_all "a"
        {| update_orig_url := "https://example.org" |} visited_once
      = (Return {| orig_url := "https://example.org"; short_url := "a";
                   resp_registered_at := 0 |}, st')
    ∧ redis st' !! key_by_call "a" 0%nat = None
    ∧ (short_to_orig key_by_call "a" 0%nat 2 st').1
      = Return {| redirect_url := "https://example.org" |}.
Proof.
  apply (update_then_resolve key_by_call clear_all "a" 0%nat
           {| update_orig_url := "https://example.org" |} visited_once
           {| original := "https://example.com"; registered_at := 0;
              get_num := 1; last_time := Some 1 |} 2
           clear_all_evicts); [reflexivity | done].
Defined.

Lemma create_then_resolve_witness :
  ∃ resp st',
    create_short uuid_by_number clear_all
        {| create_orig_url := "https://example.net"; alias_url := None |}
        3 7%N visited_once
      = (Return resp, st')
    ∧ short_url resp = "u7"
    ∧ short_url resp ≠ ""
    ∧ original <$> urls_db st' !! short_url resp
      = Some "https://example.net"
    ∧ (short_to_orig key_by_call (short_url resp) 0%nat 4 st').1
      = Return {| redirect_url := "https://example.net" |}.
Proof.
  apply (create_then_resolve uuid_by_number key_by_call clear_all
           {| create_orig_url := "https://example.net"; alias_url := None |}
           3 7%N visited_once 0%nat 4
           uuid_by_number_nonempty clear_all_evicts);
    reflexivity.
Defined.

Lemma delete_then_resolve_witness :
  ∃ st',
    delete_short_url clear_all "a" visited_once
      = (Return "deleted", st')
    ∧ urls_db st' = delete "a" (urls_db visited_once)
    ∧ (short_to_orig key_by_call "a" 0%nat 2 st').1 = Raise not_found.
Proof.
  destruct (delete_then_resolve key_by_call clear_all "a" 0%nat
              visited_once 2 clear_all_evicts) as [Hfound _].
  exact (Hfound {| original := "https://example.com"; registered_at := 0;
                   get_num := 1; last_time := Some 1 |} eq_refl).
Defined.

Lemma serve_keeps_count_and_registration_witness :
  ∃ e e',
    urls_db visited_once !! "a" = Some e
    ∧ urls_db (serve uuid_by_number key_by_call clear_all
                 (ShortToOrig "a" 0%nat) 70 visited_once) !! "a" = Some e'
    ∧ get_num e = 1 ∧ get_num e' = 2
    ∧ get_num e ≤ get_num e' ∧ registered_at e = registered_at e'.
Proof.
  do 2 eexists. split; [reflexivity|]. split; [reflexivity|].
  split; [reflexivity|]. split; [reflexivity|].
  apply (serve_keeps_count_and_registration uuid_by_number key_by_call
           clear_all (ShortToOrig "a" 0%nat) 70 visited_once "a");
    reflexivity.
Defined.

(** The hypothesis on the cache package is needed: were the clear to
    remove only the entry under the key that [invalidate_cache] names, a
    key under which the decorator files nothing, the resolve after an
    update would still answer with the old URL. *)
Example stale_read_without_eviction :
  original <$>
    urls_db (update_original_url clear_one_key "a"
               {| update_orig_url := "https://example.org" |}
               visited_once).2 !! "a"
    = Some "https://example.org"
  ∧ (short_to_orig key_by_call "a" 0%nat 2
       (update_original_url clear_one_key "a"
          {| update_orig_url := "https://example.org" |} visited_once).2).1
    = Return {| redirect_url := "https://example.com" |}.
Proof. split; reflexivity. Qed.

(** The search compares whole strings: a trailing slash, a prefix or
    another case of letters is another URL. *)
Example search_links_no_near_match :
  (search_links "https://example.com" visited_once).1
    = Return [ {| orig_url := "https://example.com"; short_url := "a";
                  resp_registered_at := 0 |} ]
  ∧ (search_links "https://example.com/" visited_once).1 = Raise no_links
  ∧ (search_links "https://example" visited_once).1 = Raise no_links
  ∧ (search_links "HTTPS://EXAMPLE.COM" visited_once).1 = Raise no_links.
Proof. repeat split; reflexivity. Qed.

(** ** Further properties of the handlers *)

Section further.

Variable shortuuid_uuid : N → string.
Variable key_builder : string → session → string.
Variable FastAPICache_clear :
  string → gmap string cache_entry → gmap string cache_entry.

Abbreviation create_short := (create_short shortuuid_uuid FastAPICache_clear).
Abbreviation short_to_orig := (short_to_orig key_builder).
Abbreviation delete_short_url := (delete_short_url FastAPICache_clear).
Abbreviation update_original_url := (update_original_url FastAPICache_clear).
Abbreviation requested_code := (requested_code shortuuid_uuid).
Abbreviation serve := (serve shortuuid_uuid key_builder FastAPICache_clear).
Abbreviation raised := (raised shortuuid_uuid key_builder FastAPICache_clear).
Abbreviation touched := (touched shortuuid_uuid).
Abbreviation reachable :=
  (reachable shortuuid_uuid key_builder FastAPICache_clear).
Abbreviation clear_evicts := (clear_evicts key_builder FastAPICache_clear).
Abbreviation clear_only_removes := (clear_only_removes FastAPICache_clear).
Abbreviation key_builder_inj := (key_builder_inj key_builder).

(** *** Steps shared by the proofs below *)

Lemma create_short_Return url now rnd st resp st' :
  create_short url now rnd st = (Return resp, st') →
  urls_db st !! requested_code url rnd = None.
Proof.
  intros Hrun.
  destruct (urls_db st !! requested_code url rnd) as [e|] eqn:He; [|done].
  exfalso. run.
  destruct (alias_url url) as [alias|]; simpl in *;
    rewrite He in Hrun; discriminate.
Qed.

Lemma create_short_taken_raises url now rnd st e :
  urls_db st !! requested_code url rnd = Some e →
  ∃ ex, create_short url now rnd st = (Raise ex, st).
Proof.
  intros He. run.
  destruct (alias_url url) as [alias|]; simpl in *; rewrite He; eauto.
Qed.

Lemma search_links_found original_url st short_code e :
  urls_db st !! short_code = Some e →
  original e = original_url →
  ∃ l, (search_links original_url st).1 = Return l
       ∧ {| orig_url := original e; short_url := short_code;
            resp_registered_at := registered_at e |} ∈ l.
Proof.
  intros He Hq. run.
  set (P := λ kr : string * UrlsDB, original kr.2 = original_url).
  assert ((short_code, e) ∈ filter P (map_to_list (urls_db st))) as Hin.
  { apply list_elem_of_filter. split; [done|]. by apply elem_of_map_to_list. }
  destruct (filter P (map_to_list (urls_db st))) as [|kr l] eqn:Hl;
    cbn [fst snd].
  - by apply not_elem_of_nil in Hin.
  - eexists. split; [done|].
    apply list_elem_of_fmap. by exists (short_code, e).
Qed.

Lemma search_links_elem original_url st l r :
  (search_links original_url st).1 = Return l →
  r ∈ l →
  ∃ e, urls_db st !! short_url r = Some e ∧ original e = original_url.
Proof.
  run.
  set (P := λ kr : string * UrlsDB, original kr.2 = original_url).
  set (f := λ url : string * UrlsDB,
         {| short_url := url.1; orig_url := original url.2;
            resp_registered_at := registered_at url.2 |}).
  pose proof (list_elem_of_filter P (map_to_list (urls_db st))) as Hin.
  destruct (filter P (map_to_list (urls_db st))) as [|kr l0] eqn:Hl;
    cbn [fst snd]; [done|].
  intros Heq Hr. assert (l = f <$> kr :: l0) as -> by congruence.
  apply list_elem_of_fmap in Hr as [[c e] [-> [HP Hm]%Hin]].
  apply elem_of_map_to_list in Hm. by exists e.
Qed.

(** *** Update *)

(** X1. An update of a short code that has no row raises 404 and changes
    nothing: no row appears and the cache is not cleared. *)
Theorem update_original_url_missing short_code url_data st :
  urls_db st !! short_code = None →
  update_original_url short_code url_data st = (Raise not_found, st).
Proof. intros He. by apply update_original_url_unknown. Qed.

(** X2. An update of a row rewrites its [original] and nothing else of it:
    the visit count, the last visit time and the registration time stay;
    every other row and the file [tw.txt] stay as well. *)
Theorem update_original_url_keeps_stats short_code url_data st e :
  urls_db st !! short_code = Some e →
  urls_db (update_original_url short_code url_data st).2 !! short_code
    = Some {| original := update_orig_url url_data;
              registered_at := registered_at e;
              get_num := get_num e;
              last_time := last_time e |}
  ∧ (∀ c, c ≠ short_code →
       urls_db (update_original_url short_code url_data st).2 !! c
         = urls_db st !! c)
  ∧ tw_txt (update_original_url short_code url_data st).2 = tw_txt st.
Proof.
  intros He. erewrite update_original_url_found by done. simpl.
  split; [apply lookup_insert_eq|]. split; [|done].
  intros c Hne. by rewrite lookup_insert_ne.
Qed.

(** X3. After an update, the search by the new URL finds the short code
    with its old registration time, and, when the URL really changed, the
    search by the old URL no longer lists it. *)
Theorem update_then_search short_code url_data st e :
  urls_db st !! short_code = Some e →
  (∃ l,
     (search_links (update_orig_url url_data)
        (update_original_url short_code url_data st).2).1 = Return l
     ∧ {| orig_url := update_orig_url url_data; short_url := short_code;
          resp_registered_at := registered_at e |} ∈ l)
  ∧ (original e ≠ update_orig_url url_data →
     ∀ l r,
       (search_links (original e)
          (update_original_url short_code url_data st).2).1 = Return l →
       r ∈ l → short_url r ≠ short_code).
Proof.
  intros He. erewrite update_original_url_found by done. simpl. split.
  - eapply (search_links_found (update_orig_url url_data) _ short_code
              {| original := update_orig_url url_data;
                 registered_at := registered_at e;
                 get_num := get_num e; last_time := last_time e |});
      [apply lookup_insert_eq | done].
  - intros Hne l r Hl Hr Hc.
    destruct (search_links_elem _ _ _ _ Hl Hr) as (e' & He' & Hq).
    simpl in He'. rewrite Hc, lookup_insert_eq in He'.
    injection He' as <-. simpl in Hq. congruence.
Qed.

(** *** Creation *)

(** X4. A create without an alias whose generated code is already the
    short code of a row raises the integrity error of the primary key, not
    409, and changes nothing. *)
Theorem create_short_generated_collision url now rnd st e :
  alias_url url = None →
  urls_db st !! shortuuid_uuid rnd = Some e →
  create_short url now rnd st = (Raise IntegrityError, st).
Proof. intros Ha He. run. by rewrite Ha; simpl; rewrite He. Qed.


(** X6. The search by the URL a create was given lists the response the
    create returned. *)
Theorem create_then_search url now rnd st resp st' :
  create_short url now rnd st = (Return resp, st') →
  ∃ l, (search_links (create_orig_url url) st').1 = Return l ∧ resp ∈ l.
Proof.
  intros Hrun. pose proof (create_short_Return _ _ _ _ _ _ Hrun) as Hfree.
  rewrite create_short_fresh in Hrun by done. injection Hrun as <- <-.
  eapply (search_links_found (create_orig_url url) _
            (requested_code url rnd) (new_UrlsDB (create_orig_url url) now));
    [apply lookup_insert_eq | done].
Qed.

(** X7. The stats of the short code a create returned are the response of
    the create with no visit: a count of 0 and no last visit time. *)
Theorem create_then_stats url now rnd st resp st' :
  create_short url now rnd st = (Return resp, st') →
  get_url_stats (short_url resp) st'
    = (Return {| stats_base := resp; stats_get_num := 0;
                 stats_last_time := None |}, st').
Proof.
  intros Hrun. pose proof (create_short_Return _ _ _ _ _ _ Hrun) as Hfree.
  rewrite create_short_fresh in Hrun by done. injection Hrun as <- <-.
  run. by rewrite lookup_insert_eq.
Qed.

(** *** Resolution and the sixty seconds of the cache *)

(** X8. The stats read after a resolve that ran the handler on a row
    whose count is below the largest value of the column show the visit:
    the count one higher and the time of the resolve as the last visit. *)
Theorem get_url_stats_after_visit short_code db now st e :
  cache_get now (key_builder short_code db) (redis st) = None →
  urls_db st !! short_code = Some e →
  0 ≤ get_num e < Integer_max →
  (get_url_stats short_code (short_to_orig short_code db now st).2).1
    = Return {| stats_base :=
                  {| orig_url := original e; short_url := short_code;
                     resp_registered_at := registered_at e |};
                stats_get_num := get_num e + 1;
                stats_last_time := Some now |}.
Proof.
  intros Hmiss He Hfit.
  rewrite (short_to_orig_miss key_builder short_code db now st e)
    by (try done; unfold Integer_min, Integer_max in *; lia).
  run. by rewrite lookup_insert_eq.
Qed.

(** X9. The cache entry that a resolve filed does not answer a resolve of
    the same short code whose session prints differently, so that its
    key is another one with no entry: both resolves run the handler and
    both visits are counted, however close in time they are. *)
Theorem short_to_orig_other_session short_code db0 db1 now0 now1 st e :
  cache_get now0 (key_builder short_code db0) (redis st) = None →
  cache_get now1 (key_builder short_code db1) (redis st) = None →
  key_builder short_code db1 ≠ key_builder short_code db0 →
  urls_db st !! short_code = Some e →
  0 ≤ get_num e → get_num e + 1 < Integer_max →
  (short_to_orig short_code db1 now1
     (short_to_orig short_code db0 now0 st).2).1
    = Return {| redirect_url := original e |}
  ∧ urls_db
      (short_to_orig short_code db1 now1
         (short_to_orig short_code db0 now0 st).2).2 !! short_code
    = Some {| original := original e; registered_at := registered_at e;
              get_num := get_num e + 2; last_time := Some now1 |}.
Proof.
  intros Hmiss0 Hmiss1 Hkey He H0 Hfit.
  rewrite (short_to_orig_miss key_builder short_code db0 now0 st e)
    by (try done; unfold Integer_min, Integer_max in *; lia).
  rewrite (short_to_orig_miss key_builder short_code db1 now1 _
             {| original := original e; registered_at := registered_at e;
                get_num := get_num e + 1; last_time := Some now0 |}); simpl.
  - split; [done|]. rewrite lookup_insert_eq. do 2 f_equal. lia.
  - unfold cache_get in *. by rewrite lookup_insert_ne.
  - apply lookup_insert_eq.
  - unfold Integer_min, Integer_max in *. lia.
Qed.

(** X10. A resolve more than 60 seconds after the resolve that filled the
    cache, with a session that prints the same, finds the entry expired
    and runs the handler again: when the column can hold it, the count is
    two higher than before the first resolve and the last visit time is
    the time of the second. *)
Theorem short_to_orig_after_ttl short_code db now0 now1 st e :
  cache_get now0 (key_builder short_code db) (redis st) = None →
  urls_db st !! short_code = Some e →
  0 ≤ get_num e → get_num e + 1 < Integer_max →
  now0 + 60 < now1 →
  (short_to_orig short_code db now1
     (short_to_orig short_code db now0 st).2).1
    = Return {| redirect_url := original e |}
  ∧ urls_db
      (short_to_orig short_code db now1
         (short_to_orig short_code db now0 st).2).2 !! short_code
    = Some {| original := original e; registered_at := registered_at e;
              get_num := get_num e + 2; last_time := Some now1 |}.
Proof.
  intros Hmiss He H0 Hfit Hlt.
  rewrite (short_to_orig_miss key_builder short_code db now0 st e)
    by (try done; unfold Integer_min, Integer_max in *; lia).
  rewrite (short_to_orig_miss key_builder short_code db now1 _
             {| original := original e; registered_at := registered_at e;
                get_num := get_num e + 1; last_time := Some now0 |}); simpl.
  - split; [done|]. rewrite lookup_insert_eq. do 2 f_equal. lia.
  - unfold cache_get. rewrite lookup_insert_eq. case_decide; [lia|done].
  - apply lookup_insert_eq.
  - unfold Integer_min, Integer_max in *. lia.
Qed.

(** X11. The file [tw.txt] is written by the resolve handler alone, and
    only when it runs: then, found or not, the file holds the short code
    asked for. A resolve the cache answers and every other request leave
    the file as it is. *)
Theorem serve_tw_txt req now st :
  tw_txt (serve req now st) =
    match req with
    | ShortToOrig short_code db =>
        match cache_get now (key_builder short_code db) (redis st) with
        | Some _ => tw_txt st
        | None => Some short_code
        end
    | _ => tw_txt st
    end.
Proof.
  destruct req as [q|url rnd|c db|c|c d|c]; simpl.
  - by rewrite search_links_state.
  - destruct (urls_db st !! requested_code url rnd) as [e|] eqn:He.
    + by erewrite create_short_taken.
    + by rewrite create_short_fresh.
  - destruct (cache_get now (key_builder c db) (redis st)) as [v|] eqn:Hget.
    { by erewrite short_to_orig_hit. }
    by destruct (short_to_orig_miss_cases _ c db now st Hget)
      as [(e & He & Hfit & ->)|[x ->]].
  - destruct (urls_db st !! c) as [e|] eqn:He.
    + by erewrite delete_short_url_found.
    + by rewrite delete_short_url_unknown.
  - destruct (urls_db st !! c) as [e|] eqn:He.
    + by erewrite update_original_url_found.
    + by rewrite update_original_url_unknown.
  - by rewrite get_url_stats_state.
Qed.

(** *** Deletion *)

(** X13. A second delete of a short code that a first delete removed raises
    404 and changes nothing. *)
Theorem delete_short_url_twice short_code st e :
  urls_db st !! short_code = Some e →
  (delete_short_url short_code st).1 = Return "deleted"
  ∧ delete_short_url short_code (delete_short_url short_code st).2
    = (Raise not_found, (delete_short_url short_code st).2).
Proof.
  intros He. erewrite delete_short_url_found by done. simpl.
  split; [done|]. apply delete_short_url_unknown. simpl.
  apply lookup_delete_eq.
Qed.

(** X14. The short code of a deleted row is free again: a create with it
    as alias succeeds, the new row starts with no visit at the time of the
    create, and the resolve that follows returns the new URL. *)
Theorem delete_then_create_alias short_code db st e url now rnd now' :
  clear_evicts →
  urls_db st !! short_code = Some e →
  alias_url url = Some short_code →
  ∃ st',
    create_short url now rnd (delete_short_url short_code st).2
      = (Return {| orig_url := create_orig_url url; short_url := short_code;
                   resp_registered_at := now |}, st')
    ∧ urls_db st' !! short_code
      = Some {| original := create_orig_url url; registered_at := now;
                get_num := 0; last_time := None |}
    ∧ (short_to_orig short_code db now' st').1
      = Return {| redirect_url := create_orig_url url |}.
Proof.
  intros Hev He Ha.
  assert (requested_code url rnd = short_code) as Hcode
    by (unfold main.requested_code; by rewrite Ha).
  erewrite delete_short_url_found by done.
  eexists. split; [|split].
  - rewrite create_short_fresh; rewrite Hcode; [done|]. simpl.
    apply lookup_delete_eq.
  - simpl. apply lookup_insert_eq.
  - erewrite short_to_orig_after_clear;
      [|done|apply lookup_insert_eq|by unfold Integer_max].
    done.
Qed.

(** *** What a request leaves alone *)

(** X15. A request writes no row but the one of the short code it names:
    every row with another short code is after the request what it was
    before it. A search names none. *)
Theorem serve_frame req now st short_code :
  touched req ≠ Some short_code →
  urls_db (serve req now st) !! short_code = urls_db st !! short_code.
Proof.
  intros Hne. destruct req as [q|url rnd|c db|c|c d|c]; simpl in *.
  - by rewrite search_links_state.
  - destruct (urls_db st !! requested_code url rnd) as [e|] eqn:He.
    + by erewrite create_short_taken.
    + rewrite create_short_fresh by done. simpl.
      rewrite lookup_insert_ne; [done|congruence].
  - destruct (cache_get now (key_builder c db) (redis st)) as [v|] eqn:Hget.
    { by erewrite short_to_orig_hit. }
    destruct (short_to_orig_miss_cases _ c db now st Hget)
      as [(e & He & Hfit & ->)|[ex ->]]; [|done].
    simpl. rewrite lookup_insert_ne; [done|congruence].
  - destruct (urls_db st !! c) as [e|] eqn:He.
    + erewrite delete_short_url_found by done. simpl.
      rewrite lookup_delete_ne; [done|congruence].
    + by rewrite delete_short_url_unknown.
  - destruct (urls_db st !! c) as [e|] eqn:He.
    + erewrite update_original_url_found by done. simpl.
      rewrite lookup_insert_ne; [done|congruence].
    + by rewrite update_original_url_unknown.
  - by rewrite get_url_stats_state.
Qed.

(** X16. Only a create adds a row and only a delete removes one: after a
    search, a resolve, an update or a stats read the table has the short
    codes it had. *)
Theorem serve_same_short_codes req now st :
  (∀ url rnd, req ≠ CreateShort url rnd) →
  (∀ short_code, req ≠ DeleteShortUrl short_code) →
  dom (urls_db (serve req now st)) = dom (urls_db st).
Proof.
  intros Hcr Hdel. destruct req as [q|url rnd|c db|c|c d|c]; simpl.
  - by rewrite search_links_state.
  - by destruct (Hcr url rnd).
  - destruct (cache_get now (key_builder c db) (redis st)) as [v|] eqn:Hget.
    { by erewrite short_to_orig_hit. }
    destruct (short_to_orig_miss_cases _ c db now st Hget)
      as [(e & He & Hfit & ->)|[ex ->]]; [|done].
    simpl. by apply dom_insert_lookup_L.
  - by destruct (Hdel c).
  - destruct (urls_db st !! c) as [e|] eqn:He.
    + erewrite update_original_url_found by done. simpl.
      by apply dom_insert_lookup_L.
    + by rewrite update_original_url_unknown.
  - by rewrite get_url_stats_state.
Qed.

(** X17. A request that ends with an exception has changed neither the
    table nor the cache: each handler raises before it writes, or after a
    statement that matched no row. *)
Theorem raised_changes_nothing req now st ex :
  raised req now st = Some ex →
  urls_db (serve req now st) = urls_db st
  ∧ redis (serve req now st) = redis st.
Proof.
  destruct req as [q|url rnd|c db|c|c d|c]; simpl.
  - by rewrite search_links_state.
  - destruct (urls_db st !! requested_code url rnd) as [e|] eqn:He.
    + by erewrite create_short_taken.
    + by rewrite create_short_fresh.
  - destruct (cache_get now (key_builder c db) (redis st)) as [v|] eqn:Hget.
    { by erewrite short_to_orig_hit. }
    by destruct (short_to_orig_miss_cases _ c db now st Hget)
      as [(e & He & Hfit & ->)|[x ->]].
  - destruct (urls_db st !! c) as [e|] eqn:He.
    + by erewrite delete_short_url_found.
    + by rewrite delete_short_url_unknown.
  - destruct (urls_db st !! c) as [e|] eqn:He.
    + by erewrite update_original_url_found.
    + by rewrite update_original_url_unknown.
  - by rewrite get_url_stats_state.
Qed.

(** *** The visit fields of every row agree *)

Lemma sound_stats_mono t t' st :
  t ≤ t' → sound_stats t st → sound_stats t' st.
Proof.
  intros Hle Hso c e He. destruct (Hso c e He) as (H0 & Hz & Hreg & Hlast).
  repeat split; try tauto; try lia.
  - by apply Hlast.
  - destruct (Hlast l) as [_ ?]; [done|lia].
Qed.

Lemma sound_stats_insert t st c e rd tw :
  sound_stats t st →
  0 ≤ get_num e → (get_num e = 0 ↔ last_time e = None) →
  registered_at e ≤ t →
  (∀ l, last_time e = Some l → registered_at e ≤ l ∧ l ≤ t) →
  sound_stats t {| urls_db := <[c := e]> (urls_db st);
                   redis := rd; tw_txt := tw |}.
Proof.
  intros Hso H0 Hz Hreg Hlast c' e'. simpl.
  destruct (decide (c' = c)) as [->|Hne].
  - rewrite lookup_insert_eq. by intros [= <-].
  - rewrite lookup_insert_ne by done. apply Hso.
Qed.

Lemma serve_sound_stats req t now st :
  t ≤ now → sound_stats t st → sound_stats now (serve req now st).
Proof.
  intros Hle Hso%(sound_stats_mono t now); [|done].
  destruct req as [q|url rnd|c db|c|c d|c]; simpl.
  - by rewrite search_links_state.
  - destruct (urls_db st !! requested_code url rnd) as [e|] eqn:He.
    + by erewrite create_short_taken.
    + rewrite create_short_fresh by done.
      apply sound_stats_insert; simpl; [done|lia|done|lia|done].
  - destruct (cache_get now (key_builder c db) (redis st)) as [v|] eqn:Hget.
    { by erewrite short_to_orig_hit. }
    destruct (short_to_orig_miss_cases _ c db now st Hget)
      as [(e & He & Hfit & ->)|[ex ->]].
    + destruct (Hso c e He) as (H0 & Hz & Hreg & Hlast).
      apply sound_stats_insert; simpl; [done|lia| |done|].
      * split; [lia|done].
      * intros l [= <-]. lia.
    + intros c' e'. simpl. apply Hso.
  - destruct (urls_db st !! c) as [e|] eqn:He.
    + erewrite delete_short_url_found by done.
      intros c' e'. simpl. intros [_ He']%lookup_delete_Some.
      exact (Hso c' e' He').
    + by rewrite delete_short_url_unknown.
  - destruct (urls_db st !! c) as [e|] eqn:He.
    + erewrite update_original_url_found by done.
      destruct (Hso c e He) as (H0 & Hz & Hreg & Hlast).
      by apply sound_stats_insert.
    + by rewrite update_original_url_unknown.
  - by rewrite get_url_stats_state.
Qed.

(** X18. In a state that requests have led to on a clock that does not run
    backwards, every row has a visit count that is not negative, a
    count of zero exactly when it has no last visit time, and a last visit
    time, when it has one, that is no earlier than its registration. *)
Theorem reachable_sound_stats t st short_code e :
  reachable t st →
  urls_db st !! short_code = Some e →
  0 ≤ get_num e
  ∧ (get_num e = 0 ↔ last_time e = None)
  ∧ ∀ l, last_time e = Some l → registered_at e ≤ l.
Proof.
  intros Hreach He.
  assert (sound_stats t st) as Hso.
  { clear He. induction Hreach as [t|t st now req _ IH Hle].
    - intros c' e'. simpl. by rewrite lookup_empty.
    - by eapply serve_sound_stats. }
  destruct (Hso _ _ He) as (H0 & Hz & _ & Hlast).
  split; [done|]. split; [done|]. intros l Hl. by apply Hlast.
Qed.

(** *** No cache entry lasts *)

Lemma short_lived_mono t t' st :
  t ≤ t' → short_lived t st → short_lived t' st.
Proof. intros Hle Hsl k v x Hk. specialize (Hsl k v x Hk). lia. Qed.

Lemma short_lived_cleared t st key tbl tw :
  clear_only_removes → short_lived t st →
  short_lived t {| urls_db := tbl;
                   redis := FastAPICache_clear key (redis st);
                   tw_txt := tw |}.
Proof.
  intros Hrm Hsl k v x. simpl. intros Hk. apply (Hsl k v x).
  eapply lookup_weaken; [exact Hk | apply Hrm].
Qed.

Lemma serve_short_lived req t now st :
  clear_only_removes →
  t ≤ now → short_lived t st → short_lived now (serve req now st).
Proof.
  intros Hrm Hle Hsl%(short_lived_mono t now); [|done].
  destruct req as [q|url rnd|c db|c|c d|c]; simpl.
  - by rewrite search_links_state.
  - destruct (urls_db st !! requested_code url rnd) as [e|] eqn:He.
    + by erewrite create_short_taken.
    + rewrite create_short_fresh by done. by apply short_lived_cleared.
  - destruct (cache_get now (key_builder c db) (redis st)) as [v|] eqn:Hget.
    { by erewrite short_to_orig_hit. }
    destruct (short_to_orig_miss_cases _ c db now st Hget)
      as [(e & He & Hfit & ->)|[ex ->]].
    + intros k v x. simpl.
      destruct (decide (k = key_builder c db)) as [->|Hne].
      * rewrite lookup_insert_eq. intros [= <- <-]. lia.
      * rewrite lookup_insert_ne by done. apply Hsl.
    + intros k v x. simpl. apply Hsl.
  - destruct (urls_db st !! c) as [e|] eqn:He.
    + erewrite delete_short_url_found by done. by apply short_lived_cleared.
    + by rewrite delete_short_url_unknown.
  - destruct (urls_db st !! c) as [e|] eqn:He.
    + erewrite update_original_url_found by done.
      by apply short_lived_cleared.
    + by rewrite update_original_url_unknown.
  - by rewrite get_url_stats_state.
Qed.

Lemma reachable_short_lived t st :
  clear_only_removes → reachable t st → short_lived t st.
Proof.
  intros Hrm. induction 1 as [t|t st now req _ IH Hle].
  - intros k v x. simpl. by rewrite lookup_empty.
  - by eapply serve_short_lived.
Qed.

Lemma reachable_sound t st : reachable t st → sound_stats t st.
Proof.
  induction 1 as [t|t st now req _ IH Hle].
  - intros c e. simpl. by rewrite lookup_empty.
  - by eapply serve_sound_stats.
Qed.

(** X19. In a state that requests have led to, the last of them at time
    [t], a resolve later than [t + 60] of a short code whose row counts
    fewer visits than the column can hold is never answered by the cache:
    it returns the row's URL and counts the visit. *)
Theorem short_to_orig_after_quiet t st short_code db now e :
  clear_only_removes →
  reachable t st →
  t + 60 < now →
  urls_db st !! short_code = Some e →
  get_num e < Integer_max →
  (short_to_orig short_code db now st).1
    = Return {| redirect_url := original e |}
  ∧ urls_db (short_to_orig short_code db now st).2 !! short_code
    = Some {| original := original e; registered_at := registered_at e;
              get_num := get_num e + 1; last_time := Some now |}.
Proof.
  intros Hrm Hreach Hlt He Hfit.
  pose proof (reachable_short_lived _ _ Hrm Hreach) as Hsl.
  destruct (reachable_sound _ _ Hreach _ _ He) as (H0 & _).
  assert (cache_get now (key_builder short_code db) (redis st) = None)
    as Hmiss.
  { destruct (cache_get now (key_builder short_code db) (redis st))
      as [v|] eqn:Hget; [|done].
    apply cache_get_Some in Hget as (x & Hk & Hle).
    specialize (Hsl _ _ _ Hk). lia. }
  rewrite (short_to_orig_miss key_builder short_code db now st e)
    by (try done; unfold Integer_min, Integer_max in *; lia).
  simpl. split; [done|]. apply lookup_insert_eq.
Qed.

(** *** What a resolve returns and what it counts *)

(** X12. In a state that requests have led to, a resolve of a short code
    that has a row never returns a URL other than the one the row holds
    now, whether the cache answers or the table does; and it does return
    that URL when the row counts fewer visits than the column can hold. *)
Theorem short_to_orig_never_stale t st short_code db now e :
  clear_evicts → clear_only_removes → key_builder_inj →
  reachable t st →
  urls_db st !! short_code = Some e →
  (∀ v, (short_to_orig short_code db now st).1 = Return v →
        v = {| redirect_url := original e |})
  ∧ (get_num e < Integer_max →
     (short_to_orig short_code db now st).1
       = Return {| redirect_url := original e |}).
Proof.
  intros Hev Hrm Hinj Hreach He.
  pose proof (reachable_coherent _ _ _ _ _ Hev Hrm Hinj Hreach) as Hco.
  destruct (reachable_sound _ _ Hreach _ _ He) as (H0 & _).
  destruct (cache_get now (key_builder short_code db) (redis st))
    as [v|] eqn:Hget.
  - erewrite short_to_orig_hit by done. simpl.
    apply cache_get_Some in Hget as (expires & Hin & _).
    destruct (Hco _ _ _ _ Hin) as (e' & He' & Hv).
    assert (v = {| redirect_url := original e |}) as ->
      by (destruct v; simpl in *; congruence).
    split; [by intros ? [= <-]|done].
  - split.
    + destruct (short_to_orig_miss_cases _ short_code db now st Hget)
        as [(e' & He' & Hfit & ->)|[ex ->]]; intros v [= <-].
      congruence.
    + intros Hfit.
      by rewrite (short_to_orig_miss key_builder short_code db now st e)
        by (try done; unfold Integer_min, Integer_max in *; lia).
Qed.

(** X20. In a state that requests have led to, a resolve that the cache
    does not answer, of a short code whose row counts fewer visits than
    the column can hold, returns the row's URL, adds exactly 1 to the
    count and sets the last visit time to the time of the resolve, which
    is no earlier than the time it replaces when the clock has not run
    backwards; the other rows are not touched. *)
Theorem short_to_orig_counts_visit t st short_code db now e :
  reachable t st → t ≤ now →
  cache_get now (key_builder short_code db) (redis st) = None →
  urls_db st !! short_code = Some e →
  get_num e < Integer_max →
  ∃ st',
    short_to_orig short_code db now st
      = (Return {| redirect_url := original e |}, st')
    ∧ urls_db st' !! short_code
      = Some {| original := original e;
                registered_at := registered_at e;
                get_num := get_num e + 1;
                last_time := Some now |}
    ∧ (∀ l, last_time e = Some l → l ≤ now)
    ∧ (∀ c, c ≠ short_code → urls_db st' !! c = urls_db st !! c).
Proof.
  intros Hreach Hle Hmiss He Hfit.
  destruct (reachable_sound _ _ Hreach _ _ He) as (H0 & _ & _ & Hlast).
  eexists. split.
  { apply short_to_orig_miss; [done..|].
    unfold Integer_min, Integer_max in *. lia. }
  simpl. split; [apply lookup_insert_eq|]. split.
  - intros l Hl. destruct (Hlast l Hl). lia.
  - intros c Hne. by rewrite lookup_insert_ne.
Qed.

(** X21. A resolve that the cache does not answer, of a short code whose
    row already counts the largest value of the column, raises at the
    commit: no URL is returned, the row and the cache are left as they
    were, and [tw.txt] holds the short code. *)
Theorem short_to_orig_at_max short_code db now st e :
  cache_get now (key_builder short_code db) (redis st) = None →
  urls_db st !! short_code = Some e →
  Integer_max ≤ get_num e →
  short_to_orig short_code db now st
    = (Raise DBAPIError,
       {| urls_db := urls_db st; redis := redis st;
          tw_txt := Some short_code |}).
Proof.
  intros Hmiss He Hmax. eapply short_to_orig_miss_refused; [done..|].
  unfold Integer_min, Integer_max in *. lia.
Qed.

(** *** Every count fits the column *)

Lemma serve_counts_fit req now st :
  counts_fit st → counts_fit (serve req now st).
Proof.
  intros Hfits. destruct req as [q|url rnd|c db|c|c d|c]; simpl.
  - by rewrite search_links_state.
  - destruct (urls_db st !! requested_code url rnd) as [e|] eqn:He.
    + by erewrite create_short_taken.
    + rewrite create_short_fresh by done. intros c' e'. simpl.
      destruct (decide (c' = requested_code url rnd)) as [->|Hne].
      * rewrite lookup_insert_eq. by intros [= <-].
      * rewrite lookup_insert_ne by done. apply Hfits.
  - destruct (cache_get now (key_builder c db) (redis st)) as [v|] eqn:Hget.
    { by erewrite short_to_orig_hit. }
    destruct (short_to_orig_miss_cases _ c db now st Hget)
      as [(e & He & Hfit & ->)|[ex ->]]; [|exact Hfits].
    intros c' e'. simpl.
    destruct (decide (c' = c)) as [->|Hne].
    + rewrite lookup_insert_eq. by intros [= <-].
    + rewrite lookup_insert_ne by done. apply Hfits.
  - destruct (urls_db st !! c) as [e|] eqn:He.
    + erewrite delete_short_url_found by done.
      intros c' e'. simpl. intros [_ He']%lookup_delete_Some.
      exact (Hfits c' e' He').
    + by rewrite delete_short_url_unknown.
  - destruct (urls_db st !! c) as [e|] eqn:He.
    + erewrite update_original_url_found by done. intros c' e'. simpl.
      destruct (decide (c' = c)) as [->|Hne].
      * rewrite lookup_insert_eq. intros [= <-]. simpl. by apply (Hfits c).
      * rewrite lookup_insert_ne by done. apply Hfits.
    + by rewrite update_original_url_unknown.
  - by rewrite get_url_stats_state.
Qed.

(** X22. In a state that requests have led to, no row counts more visits
    than the column can hold: the count stops at 2147483647. *)
Theorem reachable_count_bounded t st short_code e :
  reachable t st →
  urls_db st !! short_code = Some e →
  get_num e ≤ 2147483647.
Proof.
  intros Hreach He.
  assert (counts_fit st) as Hfits.
  { clear He. induction Hreach as [t|t st now req _ IH Hle].
    - intros c' e'. simpl. by rewrite lookup_empty.
    - by apply serve_counts_fit. }
  destruct (Hfits _ _ He) as [_ Hmax]. exact Hmax.
Qed.

End further.

(** *** The further properties at the session *)

Lemma update_original_url_missing_witness :
  update_original_url clear_all "b"
      {| update_orig_url := "https://example.org" |} visited_once
    = (Raise not_found, visited_once).
Proof.
  apply (update_original_url_missing clear_all "b"
           {| update_orig_url := "https://example.org" |} visited_once).
  reflexivity.
Defined.

Lemma update_original_url_keeps_stats_witness :
  urls_db (update_original_url clear_all "a"
             {| update_orig_url := "https://example.org" |} visited_once).2
    !! "a"
    = Some {| original := "https://example.org"; registered_at := 0;
              get_num := 1; last_time := Some 1 |}
  ∧ (∀ c, c ≠ "a" →
       urls_db (update_original_url clear_all "a"
                  {| update_orig_url := "https://example.org" |}
                  visited_once).2 !! c
         = urls_db visited_once !! c)
  ∧ tw_txt (update_original_url clear_all "a"
              {| update_orig_url := "https://example.org" |} visited_once).2
    = tw_txt visited_once.
Proof.
  apply (update_original_url_keeps_stats clear_all "a"
           {| update_orig_url := "https://example.org" |} visited_once
           {| original := "https://example.com"; registered_at := 0;
              get_num := 1; last_time := Some 1 |}).
  reflexivity.
Defined.

Lemma update_then_search_witness :
  ∃ l,
    (search_links "https://example.org"
       (update_original_url clear_all "a"
          {| update_orig_url := "https://example.org" |} visited_once).2).1
      = Return l
    ∧ {| orig_url := "https://example.org"; short_url := "a";
         resp_registered_at := 0 |} ∈ l.
Proof.
  destruct (update_then_search clear_all "a"
              {| update_orig_url := "https://example.org" |} visited_once
              {| original := "https://example.com"; registered_at := 0;
                 get_num := 1; last_time := Some 1 |} eq_refl)
    as [Hnew _].
  exact Hnew.
Defined.

Lemma create_short_generated_collision_witness :
  create_short uuid_by_number clear_all
      {| create_orig_url := "https://example.net"; alias_url := None |}
      2 7%N
      (create_short uuid_by_number clear_all
         {| create_orig_url := "https://example.com";
            alias_url := Some "u7" |} 1 0%N init).2
    = (Raise IntegrityError,
       (create_short uuid_by_number clear_all
          {| create_orig_url := "https://example.com";
             alias_url := Some "u7" |} 1 0%N init).2).
Proof.
  apply (create_short_generated_collision uuid_by_number clear_all
           {| create_orig_url := "https://example.net"; alias_url := None |}
           2 7%N _ (new_UrlsDB "https://example.com" 1));
    reflexivity.
Defined.


Lemma create_then_search_witness :
  ∃ l,
    (search_links "https://example.com" created).1 = Return l
    ∧ {| orig_url := "https://example.com"; short_url := "a";
         resp_registered_at := 0 |} ∈ l.
Proof.
  apply (create_then_search uuid_by_number clear_all example_url 0 0%N
           init
           {| orig_url := "https://example.com"; short_url := "a";
              resp_registered_at := 0 |} created).
  reflexivity.
Defined.

Lemma create_then_stats_witness :
  get_url_stats "a" created
    = (Return {| stats_base :=
                   {| orig_url := "https://example.com"; short_url := "a";
                      resp_registered_at := 0 |};
                 stats_get_num := 0; stats_last_time := None |}, created).
Proof.
  apply (create_then_stats uuid_by_number clear_all example_url 0 0%N
           init
           {| orig_url := "https://example.com"; short_url := "a";
              resp_registered_at := 0 |} created).
  reflexivity.
Defined.

Lemma get_url_stats_after_visit_witness :
  (get_url_stats "a" visited_once).1
    = Return {| stats_base :=
                  {| orig_url := "https://example.com"; short_url := "a";
                     resp_registered_at := 0 |};
                stats_get_num := 1; stats_last_time := Some 1 |}.
Proof.
  apply (get_url_stats_after_visit key_by_call "a" 0%nat 1 created
           (new_UrlsDB "https://example.com" 0));
    [reflexivity | reflexivity | done].
Defined.

Lemma short_to_orig_other_session_witness :
  (short_to_orig key_by_call "a" 1%nat 2 visited_once).1
    = Return {| redirect_url := "https://example.com" |}
  ∧ urls_db (short_to_orig key_by_call "a" 1%nat 2 visited_once).2 !! "a"
    = Some {| original := "https://example.com"; registered_at := 0;
              get_num := 2; last_time := Some 2 |}.
Proof.
  apply (short_to_orig_other_session key_by_call "a" 0%nat 1%nat 1 2
           created (new_UrlsDB "https://example.com" 0));
    [reflexivity | reflexivity | discriminate | reflexivity | done | done].
Defined.

Lemma short_to_orig_after_ttl_witness :
  (short_to_orig key_by_call "a" 0%nat 62 visited_once).1
    = Return {| redirect_url := "https://example.com" |}
  ∧ urls_db (short_to_orig key_by_call "a" 0%nat 62 visited_once).2 !! "a"
    = Some {| original := "https://example.com"; registered_at := 0;
              get_num := 2; last_time := Some 62 |}.
Proof.
  apply (short_to_orig_after_ttl key_by_call "a" 0%nat 1 62 created
           (new_UrlsDB "https://example.com" 0));
    [reflexivity | reflexivity | done | done | done].
Defined.

Lemma short_to_orig_never_stale_witness :
  (∀ v, (short_to_orig key_by_call "a" 0%nat 2 visited_once).1 = Return v →
        v = {| redirect_url := "https://example.com" |})
  ∧ (1 < Integer_max →
     (short_to_orig key_by_call "a" 0%nat 2 visited_once).1
       = Return {| redirect_url := "https://example.com" |}).
Proof.
  apply (short_to_orig_never_stale uuid_by_number key_by_call clear_all
           1 visited_once "a" 0%nat 2
           {| original := "https://example.com"; registered_at := 0;
              get_num := 1; last_time := Some 1 |}
           clear_all_evicts clear_all_only_removes key_by_call_inj
           visited_once_reachable).
  reflexivity.
Defined.

Lemma delete_short_url_twice_witness :
  (delete_short_url clear_all "a" visited_once).1 = Return "deleted"
  ∧ delete_short_url clear_all "a"
      (delete_short_url clear_all "a" visited_once).2
    = (Raise not_found, (delete_short_url clear_all "a" visited_once).2).
Proof.
  apply (delete_short_url_twice clear_all "a" visited_once
           {| original := "https://example.com"; registered_at := 0;
              get_num := 1; last_time := Some 1 |}).
  reflexivity.
Defined.

Lemma delete_then_create_alias_witness :
  ∃ st',
    create_short uuid_by_number clear_all
        {| create_orig_url := "https://example.org"; alias_url := Some "a" |}
        3 0%N (delete_short_url clear_all "a" visited_once).2
      = (Return {| orig_url := "https://example.org"; short_url := "a";
                   resp_registered_at := 3 |}, st')
    ∧ urls_db st' !! "a"
      = Some {| original := "https://example.org"; registered_at := 3;
                get_num := 0; last_time := None |}
    ∧ (short_to_orig key_by_call "a" 0%nat 4 st').1
      = Return {| redirect_url := "https://example.org" |}.
Proof.
  apply (delete_then_create_alias uuid_by_number key_by_call clear_all
           "a" 0%nat visited_once
           {| original := "https://example.com"; registered_at := 0;
              get_num := 1; last_time := Some 1 |}
           {| create_orig_url := "https://example.org";
              alias_url := Some "a" |} 3 0%N 4 clear_all_evicts);
    reflexivity.
Defined.

Lemma serve_frame_witness :
  urls_db (serve uuid_by_number key_by_call clear_all
             (CreateShort {| create_orig_url := "https://example.org";
                             alias_url := Some "b" |} 0%N)
             2 visited_once) !! "a"
    = urls_db visited_once !! "a".
Proof.
  apply (serve_frame uuid_by_number key_by_call clear_all
           (CreateShort {| create_orig_url := "https://example.org";
                           alias_url := Some "b" |} 0%N)
           2 visited_once "a").
  discriminate.
Defined.

Lemma serve_same_short_codes_witness :
  dom (urls_db (serve uuid_by_number key_by_call clear_all
                  (ShortToOrig "a" 0%nat) 70 visited_once))
    = dom (urls_db visited_once).
Proof.
  apply (serve_same_short_codes uuid_by_number key_by_call clear_all
           (ShortToOrig "a" 0%nat) 70 visited_once); discriminate.
Defined.

Lemma raised_changes_nothing_witness :
  urls_db (serve uuid_by_number key_by_call clear_all
             (DeleteShortUrl "b") 2 visited_once) = urls_db visited_once
  ∧ redis (serve uuid_by_number key_by_call clear_all
             (DeleteShortUrl "b") 2 visited_once) = redis visited_once.
Proof.
  apply (raised_changes_nothing uuid_by_number key_by_call clear_all
           (DeleteShortUrl "b") 2 visited_once not_found).
  reflexivity.
Defined.

Lemma reachable_sound_stats_witness :
  ∃ e,
    urls_db visited_once !! "a" = Some e
    ∧ get_num e = 1 ∧ last_time e = Some 1 ∧ registered_at e = 0
    ∧ 0 ≤ get_num e
    ∧ (get_num e = 0 ↔ last_time e = None)
    ∧ ∀ l, last_time e = Some l → registered_at e ≤ l.
Proof.
  eexists. split; [reflexivity|]. do 3 (split; [reflexivity|]).
  apply (reachable_sound_stats uuid_by_number key_by_call clear_all
           1 visited_once "a" _ visited_once_reachable).
  reflexivity.
Defined.

Lemma short_to_orig_after_quiet_witness :
  (short_to_orig key_by_call "a" 1%nat 62 visited_once).1
    = Return {| redirect_url := "https://example.com" |}
  ∧ urls_db (short_to_orig key_by_call "a" 1%nat 62 visited_once).2 !! "a"
    = Some {| original := "https://example.com"; registered_at := 0;
              get_num := 2; last_time := Some 62 |}.
Proof.
  apply (short_to_orig_after_quiet uuid_by_number key_by_call clear_all
           1 visited_once "a" 1%nat 62
           {| original := "https://example.com"; registered_at := 0;
              get_num := 1; last_time := Some 1 |}
           clear_all_only_removes visited_once_reachable);
    [done | reflexivity | done].
Defined.

Lemma short_to_orig_counts_visit_witness :
  ∃ st',
    short_to_orig key_by_call "a" 0%nat 70 visited_once
      = (Return {| redirect_url := "https://example.com" |}, st')
    ∧ urls_db st' !! "a"
      = Some {| original := "https://example.com"; registered_at := 0;
                get_num := 2; last_time := Some 70 |}
    ∧ (∀ l, Some 1 = Some l → l ≤ 70)
    ∧ (∀ c, c ≠ "a" → urls_db st' !! c = urls_db visited_once !! c).
Proof.
  apply (short_to_orig_counts_visit uuid_by_number key_by_call clear_all
           1 visited_once "a" 0%nat 70
           {| original := "https://example.com"; registered_at := 0;
              get_num := 1; last_time := Some 1 |}
           visited_once_reachable);
    [done | reflexivity | reflexivity | done].
Defined.

Lemma short_to_orig_at_max_witness :
  short_to_orig key_by_call "a" 0%nat 2 at_max
    = (Raise DBAPIError,
       {| urls_db := urls_db at_max; redis := redis at_max;
          tw_txt := Some "a" |}).
Proof.
  apply (short_to_orig_at_max key_by_call "a" 0%nat 2 at_max
           {| original := "https://example.com"; registered_at := 0;
              get_num := Integer_max; last_time := Some 1 |});
    [reflexivity | reflexivity | done].
Defined.

Lemma reachable_count_bounded_witness :
  ∃ e,
    urls_db visited_once !! "a" = Some e
    ∧ get_num e = 1
    ∧ get_num e ≤ 2147483647.
Proof.
  eexists. split; [reflexivity|]. split; [reflexivity|].
  apply (reachable_count_bounded uuid_by_number key_by_call clear_all
           1 visited_once "a" _ visited_once_reachable).
  reflexivity.
Defined.

End main.
